(** * The Edge Impulse inference bridge of PlastiWatch V2

    A shallow embedding of the C/C++ boundary layer that lets the Rust
    firmware call the Edge Impulse classifier on the ESP32-C3:

    - [ei_c_wrapper] (the file with [signal_get_data_callback],
      [ei_run_classifier_ffi], [ei_get_classification_values]),
    - [ei_wrapper.cpp] ([run_classifier]),
    - [ei_porting.cpp] ([ei_sleep], [ei_printf], ...).

    The target is a 32-bit RISC-V core: [size_t], [int] and data pointers
    are 32 bits wide, [float] is 4 bytes.  Integers are modelled as [Z] with
    the wrap-around of the C type written out; memory is a flat,
    byte-addressed store. *)

From Stdlib Require Import ZArith List Bool String Ascii Lia.
From Stdlib Require Import Init.Byte.
Import ListNotations.

Local Open Scope Z_scope.

(** ** Machine arithmetic *)

(** [size_t] is an unsigned 32-bit type; so is a data pointer. *)
Definition size_modulus : Z := 4294967296.

Definition INT_MAX : Z := 2147483647.

(** Unsigned wrap-around of [size_t] and of pointer arithmetic. *)
Definition wrap (x : Z) : Z := x mod size_modulus.

Definition sizeof_float : Z := 4.

Definition nullptr : Z := 0.

(** ** Memory *)

(** Flat byte-addressed memory over the 32-bit address space. *)
Definition memory : Type := Z -> byte.

Definition store_byte (m : memory) (a : Z) (b : byte) : memory :=
  fun x => if x =? wrap a then b else m x.

(** [n] consecutive bytes starting at address [a]. *)
Definition load_bytes (m : memory) (a : Z) (n : Z) : list byte :=
  map (fun i => m (wrap (a + Z.of_nat i))) (seq 0 (Z.to_nat n)).

Fixpoint store_bytes (m : memory) (a : Z) (bs : list byte) : memory :=
  match bs with
  | [] => m
  | b :: bs' => store_bytes (store_byte m a b) (a + 1) bs'
  end.

(** A [float] object is held as its 4-byte object representation, which is
    what [memcpy] and a [float] assignment move around. *)
Definition float : Type := list byte.

Definition load_float (m : memory) (p : Z) : float :=
  load_bytes m p sizeof_float.

Definition store_float (m : memory) (p : Z) (v : float) : memory :=
  store_bytes m p v.

(** The array of [n] floats that starts at address [p]. *)
Definition float_array (m : memory) (p : Z) (n : Z) : list float :=
  map (fun i => load_float m (p + sizeof_float * Z.of_nat i))
      (seq 0 (Z.to_nat n)).

(** Address [x] lies in the [n]-byte object at [p]. *)
Definition in_range (p n x : Z) : Prop :=
  exists k, 0 <= k < n /\ x = wrap (p + k).

(** ** Observable calls into the platform and the SDK *)

Inductive event : Type :=
| call_memcpy (dst src n : Z)
| call_process_impulse (total_length result : Z) (debug : bool)
| call_vTaskDelay (ticks : Z)
| call_ESP_LOGI (tag msg : string).

(** ** Program state of the calling thread *)

(** [g_current_signal_data] and [g_current_signal_size] are the two
    [thread_local static] variables of the wrapper: the Per-Call Context of
    the calling thread.  [trace] records the calls that leave the bridge,
    oldest first. *)
Record state : Type := mkState {
  g_current_signal_data : Z;
  g_current_signal_size : Z;
  mem : memory;
  trace : list event
}.

Definition set_signal_data (p : Z) (st : state) : state :=
  mkState p (g_current_signal_size st) (mem st) (trace st).

Definition set_signal_size (n : Z) (st : state) : state :=
  mkState (g_current_signal_data st) n (mem st) (trace st).

Definition set_mem (m : memory) (st : state) : state :=
  mkState (g_current_signal_data st) (g_current_signal_size st) m (trace st).

Definition add_event (e : event) (st : state) : state :=
  mkState (g_current_signal_data st) (g_current_signal_size st) (mem st)
          (trace st ++ [e]).

(** The Per-Call Context as a pair: the bound buffer and its declared
    length. *)
Definition context (st : state) : Z * Z :=
  (g_current_signal_data st, g_current_signal_size st).

(** ** A small state monad *)

Definition M (A : Type) : Type := state -> A * state.

Definition ret {A : Type} (a : A) : M A := fun st => (a, st).

Definition bind {A B : Type} (c : M A) (k : A -> M B) : M B :=
  fun st => let (a, st') := c st in k a st'.

Definition gets {A : Type} (f : state -> A) : M A := fun st => (f st, st).

Definition modify (f : state -> state) : M unit := fun st => (tt, f st).

Notation "x <- c ;; k" := (bind c (fun x => k))
  (at level 61, c at next level, right associativity).
Notation "c ;; k" := (bind c (fun _ => k))
  (at level 61, right associativity).

(** [std::memcpy(dst, src, n)]: the [n] source bytes are read, then
    written at [dst].  (Where the two ranges overlap the C standard leaves
    the result undefined; the model copies the bytes as they were before
    the call.) *)
Definition memcpy (dst src n : Z) : M unit :=
  modify (fun st =>
    add_event (call_memcpy dst src n)
      (set_mem (store_bytes (mem st) dst (load_bytes (mem st) src n)) st)).

(** ** Signal Adapter *)

(** [static int signal_get_data_callback(size_t offset, size_t length,
    float* out_ptr)].  [offset + length] and [length * sizeof(float)] are
    [size_t] expressions, [g_current_signal_data + offset] is pointer
    arithmetic on [const float*]. *)
Definition signal_get_data_callback (offset length out_ptr : Z) : M Z :=
  data <- gets g_current_signal_data ;;
  if data =? nullptr then ret (-1)
  else
    size <- gets g_current_signal_size ;;
    if wrap (offset + length) >? size then ret (-1)
    else
      memcpy out_ptr (wrap (data + sizeof_float * offset))
             (wrap (length * sizeof_float)) ;;
      ret 0.

(** ** The signal handle and the external runtime *)

(** [ei::signal_t] built with [EIDSP_SIGNAL_C_FN_POINTER=1]: the declared
    total length and a C function pointer used to pull sub-ranges. *)
Record signal_t : Type := mkSignal {
  total_length : Z;
  get_data : Z -> Z -> Z -> M Z
}.

(** What one run of the SDK's [process_impulse] does, seen from the bridge:
    it pulls sub-ranges through [signal->get_data] and looks at the code
    each pull returns, reads and writes memory (the pulled samples, its
    scratch space, the result structure), and finally returns an
    [EI_IMPULSE_ERROR].  Being an inductive tree, a run always returns.
    The diagnostics, delays and allocations the SDK requests from the
    porting layer while it runs are not part of this view. *)
Inductive impulse_run : Type :=
| Return (err : Z)
| Pull (offset length out_ptr : Z) (k : Z -> impulse_run)
| Peek (k : memory -> impulse_run)
| Poke (addr : Z) (b : byte) (k : impulse_run).

Fixpoint exec (pull : Z -> Z -> Z -> M Z) (r : impulse_run) : M Z :=
  match r with
  | Return err => ret err
  | Pull offset length out_ptr k =>
      rc <- pull offset length out_ptr ;;
      exec pull (k rc)
  | Peek k =>
      m <- gets mem ;;
      exec pull (k m)
  | Poke addr b k =>
      modify (fun st => set_mem (store_byte (mem st) addr b) st) ;;
      exec pull k
  end.

(** [EI_CLASSIFIER_DSP_INPUT_FRAME_SIZE] and [EI_CLASSIFIER_LABEL_COUNT]
    come from [model-parameters/model_metadata.h]; the wrapper's header
    documents their values (375 and 4). *)
Definition EI_CLASSIFIER_DSP_INPUT_FRAME_SIZE : Z := 375.

Definition EI_CLASSIFIER_LABEL_COUNT : Z := 4.

(** A Per-Call Context is active: a buffer is bound, with the frame size
    as its declared length (the only length the bridge ever installs). *)
Definition context_installed (st : state) : Prop :=
  g_current_signal_data st <> nullptr /\
  g_current_signal_size st = EI_CLASSIFIER_DSP_INPUT_FRAME_SIZE.

(** The active Feature Buffer, as the array of floats the context binds. *)
Definition feature_buffer (st : state) : list float :=
  float_array (mem st) (g_current_signal_data st) (g_current_signal_size st).

(** A C [for (size_t i = start; i < bound; i++) body(i)] loop. *)
Fixpoint for_loop (fuel : nat) (i bound : Z) (body : Z -> M unit) : M unit :=
  match fuel with
  | O => ret tt
  | S fuel' =>
      if i <? bound then body i ;; for_loop fuel' (i + 1) bound body
      else ret tt
  end.

(** The first [n] characters of [s], or all of [s] when it is shorter. *)
Fixpoint truncate (n : nat) (s : string) : string :=
  match n, s with
  | S n', String c s' => String c (truncate n' s')
  | _, _ => EmptyString
  end.

(** [vsnprintf(buffer, size, format, args)], given the text [expansion]
    that [format] and [args] expand to: at most [size - 1] characters are
    placed in the buffer, and the length the full text would have needed is
    returned (a negative value when that length does not fit an [int]). *)
Definition vsnprintf (size : Z) (expansion : string) : string * Z :=
  let n := Z.of_nat (String.length expansion) in
  (truncate (Z.to_nat (size - 1)) expansion,
   if n <=? INT_MAX then n else -1).

Definition ESP_LOGI (tag msg : string) : M unit :=
  modify (add_event (call_ESP_LOGI tag msg)).

Definition vTaskDelay (ticks : Z) : M unit :=
  modify (add_event (call_vTaskDelay ticks)).

(** The C string a [char] buffer holds: its characters up to the first
    NUL.  This is what the ["%s"] of a log call prints. *)
Fixpoint c_str (s : string) : string :=
  match s with
  | EmptyString => EmptyString
  | String c s' =>
      if Ascii.eqb c zero then EmptyString else String c (c_str s')
  end.

(** No character of the text is NUL. *)
Fixpoint nul_free (s : string) : bool :=
  match s with
  | EmptyString => true
  | String c s' => negb (Ascii.eqb c zero) && nul_free s'
  end.

(** [void ei_printf(const char *format, ...)] with its 256-byte stack
    buffer; [expansion] is the formatted text of the call.  The log call
    is [ESP_LOGI("EI", "%s", buffer)], so it is handed the buffer's C
    string. *)
Definition ei_printf (expansion : string) : M unit :=
  let (buffer, len) := vsnprintf 256 expansion in
  if (len >? 0) && (len <? 256) then ESP_LOGI "EI" (c_str buffer)
  else ret tt.

(** C9 as the spec words it, for one message and one starting state: the
    message reaches the logging facility cut to the 255 characters the
    buffer can hold. *)
Definition routed_truncated (expansion : string) (st : state) : Prop :=
  trace (snd (ei_printf expansion st)) =
  trace st ++ [call_ESP_LOGI "EI" (truncate 255 expansion)].

Section Bridge.

(** *** What the SDK and FreeRTOS headers fix *)

(** The SDK's "no error" value of [EI_IMPULSE_ERROR]. *)
Variable EI_IMPULSE_OK : Z.

(** The behaviour of [process_impulse(&ei_default_impulse, ...)] for a
    given declared signal length, result pointer and debug flag. *)
Variable impulse : Z -> Z -> bool -> impulse_run.

(** FreeRTOS' [pdMS_TO_TICKS] macro. *)
Variable pdMS_TO_TICKS : Z -> Z.

(** Layout of [ei_impulse_result_t]: where the [classification] array
    starts, the size of one [ei_impulse_result_classification_t], and
    where its [value] field sits. *)
Variable offsetof_classification : Z.
Variable sizeof_classification_t : Z.
Variable offsetof_value : Z.

(** *** Invocation Adapter *)

Definition process_impulse (signal : signal_t) (result : Z) (debug : bool)
  : M Z :=
  modify (add_event (call_process_impulse (total_length signal) result debug)) ;;
  exec (get_data signal) (impulse (total_length signal) result debug).

(** [run_classifier] of [ei_wrapper.cpp]. *)
Definition run_classifier (signal : signal_t) (result : Z) (debug : bool)
  : M Z :=
  process_impulse signal result debug.

(** [int ei_run_classifier_ffi(const float* features,
    ei_impulse_result_t* result, int debug)]. *)
Definition ei_run_classifier_ffi (features result debug : Z) : M Z :=
  if (features =? nullptr) || (result =? nullptr) then ret (-1)
  else
    modify (set_signal_data features) ;;
    modify (set_signal_size EI_CLASSIFIER_DSP_INPUT_FRAME_SIZE) ;;
    let signal :=
      mkSignal EI_CLASSIFIER_DSP_INPUT_FRAME_SIZE signal_get_data_callback in
    err <- run_classifier signal result (negb (debug =? 0)) ;;
    modify (set_signal_data nullptr) ;;
    modify (set_signal_size 0) ;;
    ret (if err =? EI_IMPULSE_OK then 0 else -1).

(** *** Result Extractor *)

(** Address of [result->classification[i].value]. *)
Definition classification_value_ptr (result i : Z) : Z :=
  result + offsetof_classification + sizeof_classification_t * i
  + offsetof_value.

(** The score fields of the result structure, in label order. *)
Definition classification_values (m : memory) (result : Z) : list float :=
  map (fun i => load_float m (classification_value_ptr result (Z.of_nat i)))
      (seq 0 (Z.to_nat EI_CLASSIFIER_LABEL_COUNT)).

(** The caller's output array shares no byte with a score field. *)
Definition output_apart (result out_values : Z) : Prop :=
  forall i x,
    0 <= i < EI_CLASSIFIER_LABEL_COUNT ->
    in_range (classification_value_ptr result i) sizeof_float x ->
    ~ in_range out_values (sizeof_float * EI_CLASSIFIER_LABEL_COUNT) x.

(** [out_values[i] = result->classification[i].value;] *)
Definition copy_value (result out_values i : Z) : M unit :=
  v <- gets (fun st => load_float (mem st) (classification_value_ptr result i)) ;;
  modify (fun st =>
    set_mem (store_float (mem st) (out_values + sizeof_float * i) v) st).

(** [int ei_get_classification_values(const ei_impulse_result_t* result,
    float* out_values)]. *)
Definition ei_get_classification_values (result out_values : Z) : M Z :=
  if (result =? nullptr) || (out_values =? nullptr) then ret (-1)
  else
    for_loop (Z.to_nat EI_CLASSIFIER_LABEL_COUNT) 0 EI_CLASSIFIER_LABEL_COUNT
             (copy_value result out_values) ;;
    ret 0.

(** *** Host Primitives Layer *)

(** [EI_IMPULSE_ERROR ei_sleep(int32_t time_ms)]. *)
Definition ei_sleep (time_ms : Z) : M Z :=
  if time_ms <? 0 then ret EI_IMPULSE_OK
  else
    vTaskDelay (pdMS_TO_TICKS time_ms) ;;
    ret EI_IMPULSE_OK.

End Bridge.

(** ** The rest of the Host Primitives Layer *)

(** [uint64_t] is an unsigned 64-bit type. *)
Definition uint64_modulus : Z := 18446744073709551616.

Definition INT64_MAX : Z := 9223372036854775807.

(** [uint64_t ei_read_timer_ms()], given the value [now] that
    [esp_timer_get_time()] returns (an [int64_t], microseconds since boot).
    The division is C's, which truncates toward zero; the cast to
    [uint64_t] wraps. *)
Definition ei_read_timer_ms (now : Z) : Z :=
  (Z.quot now 1000) mod uint64_modulus.

(** [uint64_t ei_read_timer_us()], given the same reading. *)
Definition ei_read_timer_us (now : Z) : Z :=
  now mod uint64_modulus.

(** [void ei_putchar(char c)]: [ei_printf("%c", c)], whose formatted text is
    the one character [c]. *)
Definition ei_putchar (c : ascii) : M unit :=
  ei_printf (String c EmptyString).

(** [char ei_getchar(void)]. *)
Definition ei_getchar : M ascii := ret zero.

(** [memset(p, c, n)]: [n] copies of the byte [c] from address [p] on. *)
Definition memset (p : Z) (c : byte) (n : Z) : M unit :=
  modify (fun st =>
    set_mem (store_bytes (mem st) p (repeat c (Z.to_nat n))) st).

Section Heap.

(** FreeRTOS' allocator: given a byte count it returns a pointer, or null,
    and may change the state (its own book-keeping lives in memory). *)
Variable pvPortMalloc : Z -> M Z.

(** [void *ei_malloc(size_t size)]. *)
Definition ei_malloc (size : Z) : M Z := pvPortMalloc size.

(** [void *ei_calloc(size_t nitems, size_t size)]; [nitems * size] is a
    [size_t] product, evaluated once for the allocation and once for the
    [memset]. *)
Definition ei_calloc (nitems size : Z) : M Z :=
  ptr <- pvPortMalloc (wrap (nitems * size)) ;;
  (if negb (ptr =? nullptr) then memset ptr x00 (wrap (nitems * size))
   else ret tt) ;;
  ret ptr.

End Heap.

(** A copy issued by the Signal Adapter on behalf of the buffer at
    [features]: its source is [features + offset] and its size is that of
    [length] floats, for a request that passed the guard. *)
Definition served_from (features : Z) (e : event) : Prop :=
  exists offset length out_ptr,
    wrap (offset + length) <= EI_CLASSIFIER_DSP_INPUT_FRAME_SIZE /\
    e = call_memcpy out_ptr (wrap (features + sizeof_float * offset))
                    (wrap (length * sizeof_float)).

(** An allocator that hands out one fixed block, whatever is asked. *)
Definition sample_allocator (block : Z) (n : Z) : M Z := ret block.

(** ** Sample data

    Concrete addresses and states on which the definitions are run. *)

Definition byte_of_Z (z : Z) : byte :=
  match Byte.of_N (Z.to_N (z mod 256)) with
  | Some b => b
  | None => x00
  end.

(** A memory whose byte at address [a] is [a mod 256]. *)
Definition sample_memory : memory := byte_of_Z.

(** Addresses in the ESP32-C3 data RAM. *)
Definition sample_features : Z := 1070104576.
Definition sample_out : Z := 1070108672.
Definition sample_result : Z := 1070112768.

(** No context installed. *)
Definition idle_state : state := mkState nullptr 0 sample_memory [].

(** The state inside an invocation on [sample_features]. *)
Definition busy_state : state :=
  mkState sample_features EI_CLASSIFIER_DSP_INPUT_FRAME_SIZE sample_memory [].

(** A run of the runtime that pulls the whole frame, and on success
    stores one byte of it in the result structure. *)
Definition sample_impulse (total_length result : Z) (debug : bool)
  : impulse_run :=
  Pull 0 total_length sample_out (fun rc =>
    if rc =? 0 then Peek (fun m => Poke result (m sample_out) (Return 0))
    else Return (-5)).

(** A run that asks for samples past the end of the frame and gives up
    with the code the pull returned. *)
Definition failing_impulse (total_length result : Z) (debug : bool)
  : impulse_run :=
  Pull (total_length - 5) 10 sample_out (fun rc => Return rc).

(** A diagnostic text of [n] copies of one character. *)
Fixpoint replicate (n : nat) (c : ascii) : string :=
  match n with
  | O => EmptyString
  | S n' => String c (replicate n' c)
  end.

(** A message that needs exactly the 256 bytes of [ei_printf]'s buffer
    and one more for the terminator. *)
Definition long_message : string := replicate 256 "a"%char.

(** * Properties *)

(** ** Wrap-around arithmetic *)


Lemma wrap_small (x : Z) : 0 <= x < size_modulus -> wrap x = x.
Proof. unfold wrap. apply Z.mod_small. Qed.

Lemma wrap_add_l (a b : Z) : wrap (wrap a + b) = wrap (a + b).
Proof. unfold wrap, size_modulus. apply Zplus_mod_idemp_l. Qed.

Lemma wrap_add_r (a b : Z) : wrap (a + wrap b) = wrap (a + b).
Proof. unfold wrap, size_modulus. apply Zplus_mod_idemp_r. Qed.

(** Two addresses less than a full turn apart are different. *)
Lemma wrap_shift_neq (a j k : Z) :
  0 <= j < k -> k < size_modulus + j -> wrap (a + j) <> wrap (a + k).
Proof.
  unfold wrap, size_modulus. intros Hj Hk Heq.
  assert (Hd : (k - j) mod 4294967296 = 0).
  { replace (k - j) with ((a + k) - (a + j)) by lia.
    rewrite Zminus_mod, Heq, Z.sub_diag. reflexivity. }
  rewrite Z.mod_small in Hd by lia. lia.
Qed.

(** ** Loads and stores *)

Lemma load_bytes_length (m : memory) (a n : Z) :
  List.length (load_bytes m a n) = Z.to_nat n.
Proof. unfold load_bytes. now rewrite length_map, length_seq. Qed.

Lemma load_bytes_nth (m : memory) (a n : Z) (k : nat) (d : byte) :
  (k < Z.to_nat n)%nat ->
  nth k (load_bytes m a n) d = m (wrap (a + Z.of_nat k)).
Proof.
  intros Hk. unfold load_bytes.
  rewrite (nth_indep _ d (m (wrap (a + Z.of_nat 0)))) by
    now rewrite length_map, length_seq.
  rewrite (map_nth (fun i => m (wrap (a + Z.of_nat i)))).
  now rewrite seq_nth.
Qed.

Lemma load_bytes_ext (m m' : memory) (a a' n : Z) :
  (forall k, 0 <= k < n -> m (wrap (a + k)) = m' (wrap (a' + k))) ->
  load_bytes m a n = load_bytes m' a' n.
Proof.
  intros H. unfold load_bytes. apply map_ext_in.
  intros i Hi. apply in_seq in Hi. apply H. lia.
Qed.

Lemma store_bytes_other (bs : list byte) (m : memory) (a x : Z) :
  (forall k, 0 <= k < Z.of_nat (List.length bs) -> x <> wrap (a + k)) ->
  store_bytes m a bs x = m x.
Proof.
  revert m a. induction bs as [|b bs IH]; intros m a H; simpl.
  - reflexivity.
  - rewrite IH.
    + unfold store_byte.
      destruct (Z.eqb_spec x (wrap a)) as [E|E]; [|reflexivity].
      exfalso. apply (H 0); [simpl List.length; lia|].
      now rewrite Z.add_0_r.
    + intros k Hk. replace (a + 1 + k) with (a + (1 + k)) by lia.
      apply H. simpl List.length. lia.
Qed.

Lemma store_bytes_get (bs : list byte) (m : memory) (a : Z) (k : nat) (d : byte) :
  (k < List.length bs)%nat ->
  Z.of_nat (List.length bs) <= size_modulus ->
  store_bytes m a bs (wrap (a + Z.of_nat k)) = nth k bs d.
Proof.
  revert m a k. induction bs as [|b bs IH]; intros m a k Hk Hlen;
    cbn [store_bytes List.length nth] in *.
  - lia.
  - rewrite Nat2Z.inj_succ in Hlen. destruct k as [|k].
    + rewrite store_bytes_other.
      * unfold store_byte. rewrite Nat2Z.inj_0, Z.add_0_r, Z.eqb_refl.
        reflexivity.
      * intros j Hj. replace (a + 1 + j) with (a + (1 + j)) by lia.
        rewrite Nat2Z.inj_0. apply wrap_shift_neq; lia.
    + replace (a + Z.of_nat (S k)) with (a + 1 + Z.of_nat k) by lia.
      apply IH; lia.
Qed.

(** A range of bytes read back after it was stored. *)
Lemma load_store_bytes (bs : list byte) (m : memory) (a : Z) :
  Z.of_nat (List.length bs) <= size_modulus ->
  load_bytes (store_bytes m a bs) a (Z.of_nat (List.length bs)) = bs.
Proof.
  intros Hlen. apply (nth_ext _ _ x00 x00).
  - now rewrite load_bytes_length, Nat2Z.id.
  - intros n Hn. rewrite load_bytes_length, Nat2Z.id in Hn.
    rewrite load_bytes_nth by now rewrite Nat2Z.id.
    now apply store_bytes_get.
Qed.

Lemma not_in_range (p n x : Z) :
  ~ in_range p n x -> forall k, 0 <= k < n -> x <> wrap (p + k).
Proof. intros H k Hk E. apply H. now exists k. Qed.

Lemma firstn_skipn_seq (a n s l : nat) :
  (a + n <= l)%nat -> firstn n (skipn a (seq s l)) = seq (s + a) n.
Proof.
  revert s l n. induction a as [|a IH]; intros s l n H.
  - rewrite Nat.add_0_r. cbn [skipn]. revert s l H.
    induction n as [|n IHn]; intros s l H; [reflexivity|].
    destruct l as [|l]; [lia|]. cbn [seq firstn]. f_equal. apply IHn. lia.
  - destruct l as [|l]; [lia|]. cbn [seq skipn].
    rewrite IH by lia. f_equal. lia.
Qed.

Lemma map_seq_from {A : Type} (f : nat -> A) (s n : nat) :
  map f (seq s n) = map (fun i => f (s + i)%nat) (seq 0 n).
Proof.
  revert s f. induction n as [|n IH]; intros s f; [reflexivity|].
  cbn [seq map]. rewrite Nat.add_0_r. f_equal.
  rewrite (IH (S s)), (IH 1%nat). apply map_ext. intros i.
  f_equal. lia.
Qed.

(** ** The Signal Adapter, case by case *)

Lemma signal_get_data_callback_eq (offset length out_ptr : Z) (st : state) :
  signal_get_data_callback offset length out_ptr st =
  if g_current_signal_data st =? nullptr then (-1, st)
  else if wrap (offset + length) >? g_current_signal_size st then (-1, st)
  else (0, add_event
             (call_memcpy out_ptr
                (wrap (g_current_signal_data st + sizeof_float * offset))
                (wrap (length * sizeof_float)))
             (set_mem
                (store_bytes (mem st) out_ptr
                   (load_bytes (mem st)
                      (wrap (g_current_signal_data st + sizeof_float * offset))
                      (wrap (length * sizeof_float))))
                st)).
Proof.
  unfold signal_get_data_callback, bind, gets, ret, memcpy, modify.
  destruct (g_current_signal_data st =? nullptr); [reflexivity|].
  destruct (wrap (offset + length) >? g_current_signal_size st); reflexivity.
Qed.

(** The guard as the code evaluates it: whenever the wrapped [size_t] sum
    exceeds the declared length, the pull fails and nothing is touched. *)
Lemma signal_get_data_callback_guard (offset length out_ptr : Z) (st : state) :
  wrap (offset + length) > g_current_signal_size st ->
  signal_get_data_callback offset length out_ptr st = (-1, st).
Proof.
  intros H. rewrite signal_get_data_callback_eq.
  destruct (g_current_signal_data st =? nullptr); [reflexivity|].
  destruct (Z.gtb_spec (wrap (offset + length)) (g_current_signal_size st));
    [reflexivity|lia].
Qed.

(** Where the sum does not overflow [size_t], an out-of-range pull is
    refused before any memory access. *)
Lemma signal_get_data_callback_out_of_bounds
      (offset length out_ptr : Z) (st : state) :
  0 <= offset -> 0 <= length -> offset + length < size_modulus ->
  offset + length > g_current_signal_size st ->
  signal_get_data_callback offset length out_ptr st = (-1, st).
Proof.
  intros Ho Hl Hs Hgt. apply signal_get_data_callback_guard.
  rewrite wrap_small; lia.
Qed.

(** ** Claims about the Signal Adapter *)

(** C7. A pull request that arrives while no Per-Call Context is active
    (the thread-local data pointer is null) returns the error sentinel -1
    and leaves the whole state as it was: no byte of memory is written and
    no copy is issued. *)
Theorem signal_get_data_callback_no_context
        (offset length out_ptr : Z) (st : state) :
  g_current_signal_data st = nullptr ->
  signal_get_data_callback offset length out_ptr st = (-1, st).
Proof.
  intros H. rewrite signal_get_data_callback_eq, H. reflexivity.
Qed.

Lemma signal_get_data_callback_no_context_witness :
  g_current_signal_data idle_state = nullptr /\
  signal_get_data_callback 0 375 sample_out idle_state = (-1, idle_state).
Proof.
  split; [reflexivity|].
  apply (signal_get_data_callback_no_context 0 375 sample_out idle_state).
  reflexivity.
Defined.

Lemma signal_get_data_callback_context (offset length out_ptr : Z) (st : state) :
  context (snd (signal_get_data_callback offset length out_ptr st)) = context st.
Proof.
  rewrite signal_get_data_callback_eq.
  destruct (g_current_signal_data st =? nullptr); [reflexivity|].
  destruct (wrap (offset + length) >? g_current_signal_size st); reflexivity.
Qed.

Lemma exec_context (pull : Z -> Z -> Z -> M Z) :
  (forall offset length out_ptr st,
      context (snd (pull offset length out_ptr st)) = context st) ->
  forall r st, context (snd (exec pull r st)) = context st.
Proof.
  intros Hpull r. induction r as [err|offset length out_ptr k IH|k IH|addr b k IH];
    intros st; cbn [exec].
  - reflexivity.
  - unfold bind. specialize (Hpull offset length out_ptr st).
    destruct (pull offset length out_ptr st) as [rc st1]. cbn [snd] in Hpull.
    rewrite IH. exact Hpull.
  - unfold bind, gets. apply IH.
  - unfold bind, modify. rewrite IH. reflexivity.
Qed.

(** C10. Every pull request, successful or not, leaves the Per-Call Context
    (data pointer and declared size) exactly as it found it; hence any run of
    the runtime, whatever pulls it issues and in whatever order, ends with
    the binding it started with. *)
Theorem signal_get_data_callback_frame :
  (forall offset length out_ptr st,
      let st' := snd (signal_get_data_callback offset length out_ptr st) in
      g_current_signal_data st' = g_current_signal_data st /\
      g_current_signal_size st' = g_current_signal_size st) /\
  (forall r st,
      context (snd (exec signal_get_data_callback r st)) = context st).
Proof.
  split.
  - intros offset length out_ptr st.
    pose proof (signal_get_data_callback_context offset length out_ptr st) as H.
    unfold context in H. cbv zeta. split; congruence.
  - apply exec_context, signal_get_data_callback_context.
Qed.

(** C3. While a context is active, a pull request with
    [offset + length <= EI_CLASSIFIER_DSP_INPUT_FRAME_SIZE] succeeds with one
    copy of [length] floats: afterwards the [length] floats at [out_ptr] are,
    element for element, the slice [offset, offset + length) of the Feature
    Buffer, and no byte outside the destination has changed. *)
Theorem signal_get_data_callback_copies
        (offset length out_ptr : Z) (st : state) :
  0 <= offset -> 0 <= length ->
  context_installed st ->
  offset + length <= g_current_signal_size st ->
  exists st',
    signal_get_data_callback offset length out_ptr st = (0, st') /\
    float_array (mem st') out_ptr length =
      firstn (Z.to_nat length) (skipn (Z.to_nat offset) (feature_buffer st)) /\
    (forall x, ~ in_range out_ptr (sizeof_float * length) x ->
               mem st' x = mem st x) /\
    trace st' =
      trace st ++
      [call_memcpy out_ptr
         (wrap (g_current_signal_data st + sizeof_float * offset))
         (sizeof_float * length)] /\
    context st' = context st /\
    ((forall x,
        in_range (g_current_signal_data st)
                 (sizeof_float * g_current_signal_size st) x ->
        ~ in_range out_ptr (sizeof_float * length) x) ->
     feature_buffer st' = feature_buffer st).
Proof.
  intros Ho Hl [Hdata Hsize] Hle.
  unfold EI_CLASSIFIER_DSP_INPUT_FRAME_SIZE in Hsize.
  rewrite signal_get_data_callback_eq.
  destruct (Z.eqb_spec (g_current_signal_data st) nullptr) as [E|_];
    [contradiction|].
  assert (Hw : wrap (offset + length) = offset + length)
    by (apply wrap_small; unfold size_modulus; lia).
  assert (Hn : wrap (length * sizeof_float) = sizeof_float * length)
    by (rewrite Z.mul_comm; apply wrap_small;
        unfold size_modulus, sizeof_float; lia).
  rewrite Hw, Hn.
  destruct (Z.gtb_spec (offset + length) (g_current_signal_size st)) as [G|_];
    [lia|].
  eexists. split; [reflexivity|].
  cbn [mem trace add_event set_mem g_current_signal_data g_current_signal_size].
  set (src := wrap (g_current_signal_data st + sizeof_float * offset)).
  set (bs := load_bytes (mem st) src (sizeof_float * length)).
  assert (Hbs : List.length bs = Z.to_nat (sizeof_float * length))
    by apply load_bytes_length.
  unfold sizeof_float in *.
  repeat split.
  - unfold feature_buffer, float_array. rewrite Hsize.
    rewrite skipn_map, firstn_map, firstn_skipn_seq by lia.
    rewrite Nat.add_0_l, (map_seq_from _ (Z.to_nat offset)).
    apply map_ext_in. intros i Hi. apply in_seq in Hi.
    unfold load_float, sizeof_float. apply load_bytes_ext. intros k Hk.
    replace (out_ptr + 4 * Z.of_nat i + k)
      with (out_ptr + Z.of_nat (Z.to_nat (4 * Z.of_nat i + k))) by lia.
    rewrite (store_bytes_get bs _ _ _ x00)
      by (rewrite Hbs; unfold size_modulus; lia).
    unfold bs. rewrite load_bytes_nth by lia.
    unfold src. rewrite wrap_add_l. f_equal. f_equal. lia.
  - intros x Hx. apply store_bytes_other. intros k Hk.
    apply (not_in_range _ _ _ Hx). rewrite Hbs in Hk. lia.
  - intros Hapart. unfold feature_buffer, float_array.
    cbn [mem g_current_signal_data g_current_signal_size].
    apply map_ext_in. intros i Hi. apply in_seq in Hi.
    unfold load_float, sizeof_float. apply load_bytes_ext. intros k Hk.
    apply store_bytes_other. intros k' Hk'.
    apply (not_in_range out_ptr (4 * length)); [|rewrite Hbs in Hk'; lia].
    apply Hapart. exists (4 * Z.of_nat i + k). split; [lia|].
    f_equal. lia.
Qed.

Lemma signal_get_data_callback_copies_witness :
  exists st',
    signal_get_data_callback 3 2 sample_out busy_state = (0, st') /\
    float_array (mem st') sample_out 2 =
      firstn 2 (skipn 3 (feature_buffer busy_state)) /\
    feature_buffer st' = feature_buffer busy_state.
Proof.
  destruct (signal_get_data_callback_copies 3 2 sample_out busy_state)
    as [st' [Hrun [Hcopy [_ [_ [_ Hbuf]]]]]].
  - lia.
  - lia.
  - split; [discriminate|reflexivity].
  - simpl. unfold EI_CLASSIFIER_DSP_INPUT_FRAME_SIZE. lia.
  - exists st'. split; [exact Hrun|]. split; [exact Hcopy|].
    apply Hbuf. intros x [k [Hk Hx]] [k' [Hk' Hx']]. subst x.
    cbn [g_current_signal_data g_current_signal_size busy_state] in *.
    unfold sample_features, sample_out, sizeof_float,
      EI_CLASSIFIER_DSP_INPUT_FRAME_SIZE in *.
    rewrite !wrap_small in Hx' by (unfold size_modulus; lia). lia.
Defined.

(** The same guard when the [size_t] sum wraps: with a context installed,
    the pull [(offset, length) = (2^32 - 1, 2)] passes the check, because
    the sum is evaluated as 1, and the copy is issued. *)
Lemma signal_get_data_callback_wraps (out_ptr : Z) (st : state) :
  context_installed st ->
  signal_get_data_callback 4294967295 2 out_ptr st =
  (0, add_event
        (call_memcpy out_ptr (wrap (g_current_signal_data st - 4)) 8)
        (set_mem
           (store_bytes (mem st) out_ptr
              (load_bytes (mem st) (wrap (g_current_signal_data st - 4)) 8))
           st)).
Proof.
  intros [Hdata Hsize]. rewrite signal_get_data_callback_eq, Hsize.
  destruct (Z.eqb_spec (g_current_signal_data st) nullptr) as [E|_];
    [contradiction|].
  change (wrap (4294967295 + 2) >? EI_CLASSIFIER_DSP_INPUT_FRAME_SIZE)
    with false.
  change (wrap (2 * sizeof_float)) with 8.
  replace (wrap (g_current_signal_data st + sizeof_float * 4294967295))
    with (wrap (g_current_signal_data st - 4)); [reflexivity|].
  unfold wrap, size_modulus, sizeof_float.
  replace (g_current_signal_data st + 4 * 4294967295)
    with (g_current_signal_data st - 4 + 4 * 4294967296) by lia.
  now rewrite Z.mod_add by lia.
Qed.

(** C1, evaluated at a pull whose [size_t] sum overflows.  In [busy_state]
    (frame size 375 installed) the request [offset = 4294967295],
    [length = 2] has [offset + length > 375], yet the callback returns 0,
    issues a [memcpy] of 8 bytes from 4 bytes below the buffer, and the
    destination bytes change. *)
Theorem signal_get_data_callback_overflow :
  let offset := 4294967295 in
  let length := 2 in
  let run := signal_get_data_callback offset length sample_out busy_state in
  context_installed busy_state /\
  0 <= offset < size_modulus /\
  0 <= length < size_modulus /\
  offset + length > g_current_signal_size busy_state /\
  fst run = 0 /\
  trace (snd run) = [call_memcpy sample_out (sample_features - 4) 8] /\
  load_bytes (mem (snd run)) sample_out 8 =
    load_bytes sample_memory (sample_features - 4) 8 /\
  load_bytes (mem (snd run)) sample_out 8 <>
    load_bytes sample_memory sample_out 8.
Proof.
  cbv zeta. split; [split; [discriminate|reflexivity]|].
  split; [unfold size_modulus; lia|].
  split; [unfold size_modulus; lia|].
  split; [reflexivity|].
  rewrite signal_get_data_callback_wraps by (split; [discriminate|reflexivity]).
  split; [reflexivity|].
  split; [reflexivity|].
  split; [vm_compute; reflexivity|vm_compute; discriminate].
Qed.

(** ** Claims about the Invocation Adapter *)

Section InvocationAdapter.

Variable EI_IMPULSE_OK : Z.
Variable impulse : Z -> Z -> bool -> impulse_run.

Local Abbreviation ffi := (ei_run_classifier_ffi EI_IMPULSE_OK impulse).

(** The handle the adapter builds, and the state it calls the runtime in. *)
Local Abbreviation handle :=
  (mkSignal EI_CLASSIFIER_DSP_INPUT_FRAME_SIZE signal_get_data_callback).
Local Abbreviation installed features st :=
  (set_signal_size EI_CLASSIFIER_DSP_INPUT_FRAME_SIZE
     (set_signal_data features st)).

Lemma ei_run_classifier_ffi_eq (features result debug : Z) (st : state) :
  features <> nullptr -> result <> nullptr ->
  ffi features result debug st =
  let (err, st2) :=
    run_classifier impulse handle result (negb (debug =? 0))
                   (installed features st) in
  (if err =? EI_IMPULSE_OK then 0 else -1,
   set_signal_size 0 (set_signal_data nullptr st2)).
Proof.
  intros Hf Hr. unfold ei_run_classifier_ffi.
  destruct (Z.eqb_spec features nullptr) as [E|_]; [contradiction|].
  destruct (Z.eqb_spec result nullptr) as [E|_]; [contradiction|].
  cbn [orb]. unfold bind, modify, ret.
  destruct (run_classifier impulse handle result (negb (debug =? 0))
                           (installed features st)) as [err st2].
  reflexivity.
Qed.

(** C4. With a null feature buffer or a null result pointer the adapter
    returns -1 at once and the state is untouched: the thread-local
    context keeps its values, memory is unchanged, and the trace gains no
    call into the runtime. *)
Theorem ei_run_classifier_ffi_null (features result debug : Z) (st : state) :
  features = nullptr \/ result = nullptr ->
  ffi features result debug st = (-1, st).
Proof.
  intros H. unfold ei_run_classifier_ffi.
  destruct (Z.eqb_spec features nullptr) as [|Hf]; [reflexivity|].
  destruct (Z.eqb_spec result nullptr) as [|Hr]; [reflexivity|].
  destruct H; contradiction.
Qed.

(** C2. With both pointers non-null, whatever the runtime does and
    whatever code it returns, the adapter returns with the Per-Call
    Context cleared: the data pointer is null and the size is 0. *)
Theorem ei_run_classifier_ffi_clears_context
        (features result debug : Z) (st : state) :
  features <> nullptr -> result <> nullptr ->
  let st' := snd (ffi features result debug st) in
  g_current_signal_data st' = nullptr /\ g_current_signal_size st' = 0.
Proof.
  intros Hf Hr. rewrite ei_run_classifier_ffi_eq by assumption.
  destruct (run_classifier impulse handle result (negb (debug =? 0))
                           (installed features st)) as [err st2].
  split; reflexivity.
Qed.

(** C5. With both pointers non-null, the adapter's status is 0 exactly
    when [run_classifier] returned [EI_IMPULSE_OK]; for every other code
    it is -1. *)
Theorem ei_run_classifier_ffi_status
        (features result debug : Z) (st : state) :
  features <> nullptr -> result <> nullptr ->
  let err := fst (run_classifier impulse handle result (negb (debug =? 0))
                                 (installed features st)) in
  let status := fst (ffi features result debug st) in
  (status = 0 <-> err = EI_IMPULSE_OK) /\
  (err <> EI_IMPULSE_OK -> status = -1).
Proof.
  intros Hf Hr. rewrite ei_run_classifier_ffi_eq by assumption.
  destruct (run_classifier impulse handle result (negb (debug =? 0))
                           (installed features st)) as [err st2].
  cbn [fst]. destruct (Z.eqb_spec err EI_IMPULSE_OK) as [E|E].
  - split; [tauto|contradiction].
  - split; [|reflexivity]. split; [discriminate|contradiction].
Qed.

End InvocationAdapter.

(** ** Claims about the Result Extractor *)

Section ResultExtractor.

Variable offsetof_classification : Z.
Variable sizeof_classification_t : Z.
Variable offsetof_value : Z.

Local Abbreviation value_ptr :=
  (classification_value_ptr offsetof_classification sizeof_classification_t
                            offsetof_value).
Local Abbreviation copy :=
  (copy_value offsetof_classification sizeof_classification_t offsetof_value).
Local Abbreviation apart :=
  (output_apart offsetof_classification sizeof_classification_t
                offsetof_value).
Local Abbreviation values :=
  (classification_values offsetof_classification sizeof_classification_t
                         offsetof_value).
Local Abbreviation extract :=
  (ei_get_classification_values offsetof_classification
                                sizeof_classification_t offsetof_value).

Lemma copy_value_eq (result out_values i : Z) (st : state) :
  copy result out_values i st =
  (tt, set_mem (store_float (mem st) (out_values + sizeof_float * i)
                            (load_float (mem st) (value_ptr result i))) st).
Proof. reflexivity. Qed.

(** The loop from index [i] on: every remaining entry of the output receives
    its score field, and nothing outside those entries changes. *)
Lemma copy_loop_spec (result out_values : Z) (fuel : nat) :
  apart result out_values ->
  forall (i : Z) (st : state),
    0 <= i ->
    EI_CLASSIFIER_LABEL_COUNT - i <= Z.of_nat fuel ->
    let st' := snd (for_loop fuel i EI_CLASSIFIER_LABEL_COUNT
                             (copy result out_values) st) in
    (forall j, i <= j < EI_CLASSIFIER_LABEL_COUNT ->
       load_float (mem st') (out_values + sizeof_float * j) =
       load_float (mem st) (value_ptr result j)) /\
    (forall x,
       (forall k, sizeof_float * i <= k < sizeof_float * EI_CLASSIFIER_LABEL_COUNT ->
                  x <> wrap (out_values + k)) ->
       mem st' x = mem st x) /\
    trace st' = trace st /\
    context st' = context st.
Proof.
  intros Hapart. induction fuel as [|fuel IH]; intros i st Hi Hfuel.
  - cbn [for_loop]. unfold ret. cbn [snd].
    repeat split; try reflexivity. intros j Hj. lia.
  - cbn [for_loop]. destruct (Z.ltb_spec i EI_CLASSIFIER_LABEL_COUNT) as [Hlt|Hge].
    + unfold bind. rewrite copy_value_eq.
      set (st1 := set_mem _ st).
      destruct (IH (i + 1) st1) as [Hval [Hframe [Htrace Hctx]]]; [lia|lia|].
      set (st' := snd (for_loop fuel (i + 1) EI_CLASSIFIER_LABEL_COUNT
                                (copy result out_values) st1)) in *.
      cbv zeta. fold st'.
      assert (Hst1 : forall x,
                 (forall k, 0 <= k < sizeof_float ->
                            x <> wrap (out_values + sizeof_float * i + k)) ->
                 mem st1 x = mem st x).
      { intros x Hx. unfold st1. cbn [mem set_mem]. unfold store_float.
        apply store_bytes_other. intros k Hk. apply Hx.
        unfold load_float in Hk. rewrite load_bytes_length in Hk.
        unfold sizeof_float in *. lia. }
      unfold EI_CLASSIFIER_LABEL_COUNT, sizeof_float in *.
      repeat split.
      * intros j Hj. destruct (Z.eq_dec j i) as [->|Hne].
        -- unfold load_float, sizeof_float. apply load_bytes_ext. intros k Hk.
           rewrite Hframe.
           ++ unfold st1. cbn [mem set_mem]. unfold store_float.
              replace (out_values + 4 * i + k)
                with (out_values + 4 * i + Z.of_nat (Z.to_nat k)) by lia.
              rewrite (store_bytes_get _ _ _ _ x00).
              ** unfold load_float, sizeof_float.
                 rewrite load_bytes_nth by lia. f_equal. f_equal. lia.
              ** unfold load_float, sizeof_float.
                 rewrite load_bytes_length. lia.
              ** unfold load_float, sizeof_float.
                 rewrite load_bytes_length. unfold size_modulus. lia.
           ++ intros k' Hk'.
              replace (out_values + 4 * i + k) with (out_values + (4 * i + k))
                by lia.
              apply wrap_shift_neq; unfold size_modulus; lia.
        -- rewrite Hval by lia.
           unfold load_float, sizeof_float. apply load_bytes_ext. intros k Hk.
           apply Hst1. intros k' Hk' Heq.
           apply (Hapart j (wrap (value_ptr result j + k))).
           ++ unfold EI_CLASSIFIER_LABEL_COUNT. lia.
           ++ exists k. unfold sizeof_float. split; [lia|reflexivity].
           ++ exists (4 * i + k').
              unfold sizeof_float, EI_CLASSIFIER_LABEL_COUNT.
              split; [lia|]. rewrite Heq. f_equal. lia.
      * intros x Hx. rewrite Hframe.
        -- apply Hst1. intros k Hk.
           replace (out_values + 4 * i + k) with (out_values + (4 * i + k))
             by lia.
           apply Hx. lia.
        -- intros k Hk. apply Hx. lia.
      * rewrite Htrace. reflexivity.
      * rewrite Hctx. reflexivity.
    + unfold ret. cbn [snd]. repeat split; try reflexivity.
      intros j Hj. lia.
Qed.

(** C6. With a null result or a null destination the extractor returns -1
    and writes nothing.  With both non-null (and an output array that does
    not overlap the score fields) it returns 0, and afterwards the output
    array holds exactly [EI_CLASSIFIER_LABEL_COUNT] values, entry [i] being
    the [i]-th score field as it stands in the result structure, in the
    same order and unmodified; no other byte of memory has changed. *)
Theorem ei_get_classification_values_spec (result out_values : Z) (st : state) :
  (result = nullptr \/ out_values = nullptr ->
   extract result out_values st = (-1, st)) /\
  (result <> nullptr -> out_values <> nullptr ->
   apart result out_values ->
   exists st',
     extract result out_values st = (0, st') /\
     float_array (mem st') out_values EI_CLASSIFIER_LABEL_COUNT =
       values (mem st) result /\
     values (mem st') result = values (mem st) result /\
     (forall x,
        ~ in_range out_values (sizeof_float * EI_CLASSIFIER_LABEL_COUNT) x ->
        mem st' x = mem st x) /\
     trace st' = trace st /\
     context st' = context st).
Proof.
  unfold ei_get_classification_values. split.
  - intros H.
    destruct (Z.eqb_spec result nullptr) as [|Hr]; [reflexivity|].
    destruct (Z.eqb_spec out_values nullptr) as [|Ho]; [reflexivity|].
    destruct H; contradiction.
  - intros Hr Ho Hapart.
    destruct (Z.eqb_spec result nullptr) as [|_]; [contradiction|].
    destruct (Z.eqb_spec out_values nullptr) as [|_]; [contradiction|].
    cbn [orb]. unfold bind, ret.
    pose proof (copy_loop_spec result out_values
                  (Z.to_nat EI_CLASSIFIER_LABEL_COUNT) Hapart 0 st) as Hloop.
    destruct (for_loop (Z.to_nat EI_CLASSIFIER_LABEL_COUNT) 0
                       EI_CLASSIFIER_LABEL_COUNT (copy result out_values) st)
      as [[] st'].
    cbn [snd] in Hloop.
    destruct Hloop as [Hval [Hframe [Htrace Hctx]]];
      [lia|unfold EI_CLASSIFIER_LABEL_COUNT; lia|].
    assert (Hout : forall x,
               ~ in_range out_values (sizeof_float * EI_CLASSIFIER_LABEL_COUNT) x ->
               mem st' x = mem st x).
    { intros x Hx. apply Hframe. intros k Hk. apply (not_in_range _ _ _ Hx).
      unfold sizeof_float in *. lia. }
    exists st'. split; [reflexivity|]. repeat split; try assumption.
    + unfold float_array, classification_values. apply map_ext_in.
      intros i Hi. apply in_seq in Hi. apply Hval.
      unfold EI_CLASSIFIER_LABEL_COUNT in *. lia.
    + unfold classification_values. apply map_ext_in.
      intros i Hi. apply in_seq in Hi.
      unfold load_float. apply load_bytes_ext. intros k Hk.
      apply Hout. apply (Hapart (Z.of_nat i)).
      * unfold EI_CLASSIFIER_LABEL_COUNT in *. lia.
      * exists k. split; [assumption|reflexivity].
Qed.

End ResultExtractor.

(** ** Claims about the Host Primitives Layer *)

Section HostPrimitives.

Variable EI_IMPULSE_OK : Z.
Variable pdMS_TO_TICKS : Z -> Z.

(** C8. A negative duration makes [ei_sleep] return [EI_IMPULSE_OK] at
    once: the state is unchanged, so [vTaskDelay] was not called. *)
Theorem ei_sleep_negative (time_ms : Z) (st : state) :
  time_ms < 0 ->
  ei_sleep EI_IMPULSE_OK pdMS_TO_TICKS time_ms st = (EI_IMPULSE_OK, st).
Proof.
  intros H. unfold ei_sleep.
  destruct (Z.ltb_spec time_ms 0); [reflexivity|lia].
Qed.

(** For comparison, the path a non-negative duration takes. *)
Lemma ei_sleep_delays (time_ms : Z) (st : state) :
  0 <= time_ms ->
  ei_sleep EI_IMPULSE_OK pdMS_TO_TICKS time_ms st =
  (EI_IMPULSE_OK, add_event (call_vTaskDelay (pdMS_TO_TICKS time_ms)) st).
Proof.
  intros H. unfold ei_sleep.
  destruct (Z.ltb_spec time_ms 0); [lia|reflexivity].
Qed.

End HostPrimitives.

Lemma truncate_length (n : nat) (s : string) :
  (String.length (truncate n s) <= n)%nat.
Proof.
  revert s. induction n as [|n IH]; intros s; [simpl; lia|].
  destruct s as [|c s]; simpl; [lia|]. specialize (IH s). lia.
Qed.

Lemma truncate_all (n : nat) (s : string) :
  (String.length s <= n)%nat -> truncate n s = s.
Proof.
  revert s. induction n as [|n IH]; intros s H.
  - destruct s; [reflexivity|simpl in H; lia].
  - destruct s as [|c s]; [reflexivity|]. simpl in *. f_equal. apply IH. lia.
Qed.

Lemma c_str_nul_free (s : string) : nul_free s = true -> c_str s = s.
Proof.
  induction s as [|c s IH]; intros H; cbn [c_str nul_free] in *;
    [reflexivity|].
  apply andb_true_iff in H. destruct H as [Hc Hs].
  destruct (Ascii.eqb c zero); [discriminate|]. now rewrite IH.
Qed.

(** A message that fits the buffer is logged, under the tag "EI", up to
    its first NUL. *)
Lemma ei_printf_short (expansion : string) (st : state) :
  0 < Z.of_nat (String.length expansion) < 256 ->
  ei_printf expansion st =
  (tt, add_event (call_ESP_LOGI "EI" (c_str expansion)) st).
Proof.
  intros H. unfold ei_printf, vsnprintf.
  destruct (Z.leb_spec (Z.of_nat (String.length expansion)) INT_MAX) as [_|G];
    [|unfold INT_MAX in G; lia].
  destruct (Z.gtb_spec (Z.of_nat (String.length expansion)) 0); [|lia].
  destruct (Z.ltb_spec (Z.of_nat (String.length expansion)) 256); [|lia].
  cbn [andb]. rewrite truncate_all by lia. reflexivity.
Qed.

(** C9, refuted: a 256-character message is formatted into the buffer but
    never handed to [ESP_LOGI]; the trace stays empty. *)
Lemma ei_printf_long_message_dropped :
  256 <= Z.of_nat (String.length long_message) /\
  ei_printf long_message idle_state = (tt, idle_state) /\
  ~ routed_truncated long_message idle_state.
Proof.
  split; [vm_compute; discriminate|].
  split; [reflexivity|].
  unfold routed_truncated. vm_compute. discriminate.
Qed.

(** C9, amended. A message whose formatted length reaches or exceeds the
    256-byte buffer is dropped: [ei_printf] leaves the state unchanged, so
    nothing is handed to the logging facility.  Formatting itself stays
    bounded: the buffer receives at most 255 characters. *)
Theorem ei_printf_oversized_dropped (expansion : string) (st : state) :
  256 <= Z.of_nat (String.length expansion) ->
  ei_printf expansion st = (tt, st) /\
  (String.length (fst (vsnprintf 256 expansion)) <= 255)%nat.
Proof.
  intros H. split.
  - unfold ei_printf, vsnprintf.
    destruct (Z.of_nat (String.length expansion) <=? INT_MAX).
    + destruct (Z.ltb_spec (Z.of_nat (String.length expansion)) 256); [lia|].
      now rewrite andb_false_r.
    + reflexivity.
  - unfold vsnprintf. cbn [fst]. apply truncate_length.
Qed.

Lemma ei_printf_oversized_dropped_witness :
  256 <= Z.of_nat (String.length long_message) /\
  ei_printf long_message busy_state = (tt, busy_state).
Proof.
  split; [vm_compute; discriminate|].
  apply (ei_printf_oversized_dropped long_message busy_state).
  vm_compute. discriminate.
Defined.

(** ** The claims run on the sample data *)

Lemma ei_sleep_negative_witness :
  -5 < 0 /\
  ei_sleep 0 (fun ms => ms / 10) (-5) idle_state = (0, idle_state).
Proof.
  split; [lia|].
  apply (ei_sleep_negative 0 (fun ms => ms / 10) (-5) idle_state). lia.
Defined.

(** One whole invocation on the sample data: the runtime is entered once,
    its pull of the full frame is served from the installed buffer, and the
    adapter reports success. *)
Example ei_run_classifier_ffi_sample_run :
  let run := ei_run_classifier_ffi 0 sample_impulse sample_features
                                   sample_result 1 idle_state in
  fst run = 0 /\
  trace (snd run) =
    [call_process_impulse 375 sample_result true;
     call_memcpy sample_out sample_features 1500] /\
  context (snd run) = (nullptr, 0).
Proof. cbv zeta. repeat split. Qed.

Lemma ei_run_classifier_ffi_null_witness :
  ei_run_classifier_ffi 0 sample_impulse nullptr sample_result 0 idle_state =
  (-1, idle_state).
Proof.
  apply (ei_run_classifier_ffi_null 0 sample_impulse nullptr sample_result 0
                                    idle_state).
  left. reflexivity.
Defined.

Lemma ei_run_classifier_ffi_clears_context_witness :
  let st' := snd (ei_run_classifier_ffi 0 failing_impulse sample_features
                                        sample_result 0 idle_state) in
  g_current_signal_data st' = nullptr /\ g_current_signal_size st' = 0.
Proof.
  apply (ei_run_classifier_ffi_clears_context 0 failing_impulse sample_features
                                              sample_result 0 idle_state);
    discriminate.
Defined.

Lemma ei_run_classifier_ffi_status_witness :
  fst (ei_run_classifier_ffi 0 sample_impulse sample_features sample_result 0
                             idle_state) = 0 /\
  fst (ei_run_classifier_ffi 0 failing_impulse sample_features sample_result 0
                             idle_state) = -1.
Proof.
  split.
  - apply (ei_run_classifier_ffi_status 0 sample_impulse sample_features
             sample_result 0 idle_state); [discriminate|discriminate|].
    reflexivity.
  - apply (ei_run_classifier_ffi_status 0 failing_impulse sample_features
             sample_result 0 idle_state); [discriminate|discriminate|].
    vm_compute. discriminate.
Defined.

Lemma sample_output_apart : output_apart 16 8 4 sample_result sample_out.
Proof.
  intros i x Hi [k [Hk Hx]] [k' [Hk' Hx']]. subst x.
  unfold classification_value_ptr, sample_result, sample_out,
    EI_CLASSIFIER_LABEL_COUNT, sizeof_float in *.
  rewrite !wrap_small in Hx' by (unfold size_modulus; lia). lia.
Defined.

Lemma ei_get_classification_values_spec_witness :
  exists st',
    ei_get_classification_values 16 8 4 sample_result sample_out idle_state =
      (0, st') /\
    float_array (mem st') sample_out EI_CLASSIFIER_LABEL_COUNT =
      classification_values 16 8 4 sample_memory sample_result.
Proof.
  destruct (ei_get_classification_values_spec 16 8 4 sample_result sample_out
              idle_state) as [_ H].
  destruct H as [st' [Hrun [Hval _]]].
  - discriminate.
  - discriminate.
  - exact sample_output_apart.
  - exists st'. split; [exact Hrun|exact Hval].
Defined.

(** * Further properties of the bridge *)

(** ** Signal Adapter *)

Lemma wrap_le (x : Z) : 0 <= x -> wrap x <= x.
Proof.
  intros H. unfold wrap, size_modulus. apply Z.mod_le; lia.
Qed.

(** Writing bytes that are already there changes nothing. *)
Lemma store_bytes_same (bs : list byte) (m : memory) (a : Z) :
  Z.of_nat (List.length bs) <= size_modulus ->
  (forall k, (k < List.length bs)%nat ->
             m (wrap (a + Z.of_nat k)) = nth k bs x00) ->
  forall x, store_bytes m a bs x = m x.
Proof.
  revert m a. induction bs as [|b bs IH]; intros m a Hlen Hsame x;
    cbn [store_bytes List.length] in *; [reflexivity|].
  rewrite Nat2Z.inj_succ in Hlen.
  rewrite IH.
  - unfold store_byte. destruct (Z.eqb_spec x (wrap a)) as [->|_];
      [|reflexivity].
    specialize (Hsame 0%nat). cbn [nth] in Hsame.
    rewrite Nat2Z.inj_0, Z.add_0_r in Hsame. symmetry. apply Hsame. lia.
  - lia.
  - intros k Hk. unfold store_byte.
    destruct (Z.eqb_spec (wrap (a + 1 + Z.of_nat k)) (wrap a)) as [E|_].
    + exfalso. replace (a + 1 + Z.of_nat k) with (a + (1 + Z.of_nat k)) in E
        by lia.
      rewrite <- (Z.add_0_r a) in E at 2.
      symmetry in E. revert E. apply wrap_shift_neq; lia.
    + specialize (Hsame (S k)). cbn [nth] in Hsame.
      replace (a + 1 + Z.of_nat k) with (a + Z.of_nat (S k)) by lia.
      apply Hsame. lia.
Qed.

(** X1. A pull returns 0 or -1; it returns 0 exactly when a buffer is bound
    and the [size_t] sum [offset + length] does not exceed the declared
    size; and a pull that returns -1 has changed nothing at all. *)
Theorem signal_get_data_callback_outcome
        (offset length out_ptr : Z) (st : state) :
  let run := signal_get_data_callback offset length out_ptr st in
  (fst run = 0 \/ fst run = -1) /\
  (fst run = 0 <->
   g_current_signal_data st <> nullptr /\
   wrap (offset + length) <= g_current_signal_size st) /\
  (fst run = -1 -> snd run = st).
Proof.
  cbv zeta. rewrite signal_get_data_callback_eq.
  destruct (Z.eqb_spec (g_current_signal_data st) nullptr) as [E|E].
  - cbn [fst snd]. repeat split; try (right; reflexivity); try discriminate.
    intros [H _]. contradiction.
  - destruct (Z.gtb_spec (wrap (offset + length)) (g_current_signal_size st))
      as [G|G]; cbn [fst snd].
    + repeat split; try (right; reflexivity); try discriminate.
      intros [_ H]. lia.
    + repeat split; try (left; reflexivity); try assumption; try discriminate.
Qed.

(** X2. When [offset + length] does not overflow [size_t], the bounds gate
    is sound: a request past the declared size is refused with the state
    untouched, and a request that is served issues one copy whose every
    source byte lies inside the bound buffer. *)
Theorem signal_get_data_callback_reads_inside
        (offset length out_ptr : Z) (st : state) :
  0 <= offset -> 0 <= length -> offset + length < size_modulus ->
  let run := signal_get_data_callback offset length out_ptr st in
  (offset + length > g_current_signal_size st -> run = (-1, st)) /\
  (fst run = 0 ->
   exists src n,
     trace (snd run) = trace st ++ [call_memcpy out_ptr src n] /\
     forall k, 0 <= k < n ->
       in_range (g_current_signal_data st)
                (sizeof_float * g_current_signal_size st) (wrap (src + k))).
Proof.
  intros Ho Hl Hsum. cbv zeta. rewrite signal_get_data_callback_eq.
  rewrite (wrap_small (offset + length)) by lia.
  destruct (g_current_signal_data st =? nullptr).
  - split; [reflexivity|discriminate].
  - destruct (Z.gtb_spec (offset + length) (g_current_signal_size st))
      as [G|G]; cbn [fst snd].
    + split; [reflexivity|discriminate].
    + split; [lia|]. intros _. eexists. eexists. split; [reflexivity|].
      intros k Hk. rewrite wrap_add_l.
      assert (Hn : wrap (length * sizeof_float) <= length * sizeof_float)
        by (apply wrap_le; unfold sizeof_float; lia).
      unfold sizeof_float in *.
      exists (4 * offset + k). split; [lia|]. f_equal. lia.
Qed.

Lemma signal_get_data_callback_reads_inside_witness :
  signal_get_data_callback 370 10 sample_out busy_state = (-1, busy_state).
Proof.
  apply (signal_get_data_callback_reads_inside 370 10 sample_out busy_state);
    try (unfold size_modulus; lia).
  simpl. unfold EI_CLASSIFIER_DSP_INPUT_FRAME_SIZE. lia.
Defined.

(** X3. A pull of zero samples at any offset up to and including the end of
    the bound buffer succeeds and writes nothing: memory is unchanged, only
    the record of an empty copy is added. *)
Theorem signal_get_data_callback_empty_pull
        (offset out_ptr : Z) (st : state) :
  g_current_signal_data st <> nullptr ->
  0 <= offset <= g_current_signal_size st ->
  g_current_signal_size st < size_modulus ->
  signal_get_data_callback offset 0 out_ptr st =
  (0, add_event
        (call_memcpy out_ptr
           (wrap (g_current_signal_data st + sizeof_float * offset)) 0)
        st) /\
  mem (snd (signal_get_data_callback offset 0 out_ptr st)) = mem st.
Proof.
  intros Hdata Ho Hsize. rewrite signal_get_data_callback_eq.
  destruct (Z.eqb_spec (g_current_signal_data st) nullptr) as [E|_];
    [contradiction|].
  rewrite Z.add_0_r, (wrap_small offset) by lia.
  destruct (Z.gtb_spec offset (g_current_signal_size st)) as [G|_]; [lia|].
  destruct st as [d sz m t]. split; reflexivity.
Qed.

Lemma signal_get_data_callback_empty_pull_witness :
  mem (snd (signal_get_data_callback 375 0 sample_out busy_state)) =
  mem busy_state.
Proof.
  apply (signal_get_data_callback_empty_pull 375 sample_out busy_state).
  - discriminate.
  - simpl. unfold EI_CLASSIFIER_DSP_INPUT_FRAME_SIZE. lia.
  - simpl. unfold EI_CLASSIFIER_DSP_INPUT_FRAME_SIZE, size_modulus. lia.
Defined.

(** X4. Asking twice for the same sub-range is idempotent: when the
    destination does not overlap the bound buffer, the second pull also
    succeeds and leaves every byte of memory as the first pull left it. *)
Theorem signal_get_data_callback_repeat
        (offset length out_ptr : Z) (st : state) :
  0 <= offset -> 0 <= length ->
  context_installed st ->
  offset + length <= g_current_signal_size st ->
  (forall x,
      in_range (g_current_signal_data st)
               (sizeof_float * g_current_signal_size st) x ->
      ~ in_range out_ptr (sizeof_float * length) x) ->
  let st1 := snd (signal_get_data_callback offset length out_ptr st) in
  let again := signal_get_data_callback offset length out_ptr st1 in
  fst again = 0 /\
  (forall x, mem (snd again) x = mem st1 x) /\
  context (snd again) = context st.
Proof.
  intros Ho Hl [Hdata Hsize] Hle Hapart. cbv zeta.
  unfold EI_CLASSIFIER_DSP_INPUT_FRAME_SIZE in Hsize.
  rewrite !signal_get_data_callback_eq.
  destruct (Z.eqb_spec (g_current_signal_data st) nullptr) as [E|NE];
    [contradiction|].
  assert (Hw : wrap (offset + length) = offset + length)
    by (apply wrap_small; unfold size_modulus; lia).
  assert (Hn : wrap (length * sizeof_float) = sizeof_float * length)
    by (rewrite Z.mul_comm; apply wrap_small;
        unfold size_modulus, sizeof_float; lia).
  rewrite Hw, Hn.
  destruct (Z.gtb_spec (offset + length) (g_current_signal_size st)) as [G|NG];
    [lia|].
  cbn [snd fst mem trace add_event set_mem g_current_signal_data
       g_current_signal_size].
  destruct (Z.eqb_spec (g_current_signal_data st) nullptr) as [E|_];
    [contradiction|].
  destruct (Z.gtb_spec (offset + length) (g_current_signal_size st)) as [G|_];
    [lia|].
  cbn [snd fst mem trace add_event set_mem g_current_signal_data
       g_current_signal_size context].
  set (src := wrap (g_current_signal_data st + sizeof_float * offset)).
  set (bs := load_bytes (mem st) src (sizeof_float * length)).
  assert (Hbs : List.length bs = Z.to_nat (sizeof_float * length))
    by apply load_bytes_length.
  assert (Hsrc : load_bytes (store_bytes (mem st) out_ptr bs) src
                            (sizeof_float * length) = bs).
  { apply load_bytes_ext. intros k Hk. apply store_bytes_other.
    intros k' Hk'.
    apply (not_in_range out_ptr (sizeof_float * length));
      [|rewrite Hbs in Hk'; lia].
    apply Hapart. unfold src. rewrite wrap_add_l.
    unfold sizeof_float in *.
    exists (4 * offset + k). split; [lia|]. f_equal. lia. }
  rewrite Hsrc. repeat split.
  intros x. apply store_bytes_same.
  - rewrite Hbs. unfold sizeof_float, size_modulus. lia.
  - intros k Hk. apply store_bytes_get; [assumption|].
    rewrite Hbs. unfold sizeof_float, size_modulus. lia.
Qed.

Lemma signal_get_data_callback_repeat_witness :
  let st1 := snd (signal_get_data_callback 3 2 sample_out busy_state) in
  fst (signal_get_data_callback 3 2 sample_out st1) = 0.
Proof.
  apply (signal_get_data_callback_repeat 3 2 sample_out busy_state).
  - lia.
  - lia.
  - split; [discriminate|reflexivity].
  - simpl. unfold EI_CLASSIFIER_DSP_INPUT_FRAME_SIZE. lia.
  - intros x [k [Hk Hx]] [k' [Hk' Hx']]. subst x.
    cbn [g_current_signal_data g_current_signal_size busy_state] in *.
    unfold sample_features, sample_out, sizeof_float,
      EI_CLASSIFIER_DSP_INPUT_FRAME_SIZE in *.
    rewrite !wrap_small in Hx' by (unfold size_modulus; lia). lia.
Defined.

(** ** Invocation Adapter *)

(** While the buffer at [features] stays bound with the frame size, the
    pulls of a run add to the trace only copies served from that buffer. *)
Lemma exec_trace (features : Z) :
  features <> nullptr ->
  forall (r : impulse_run) (st : state),
    context st = (features, EI_CLASSIFIER_DSP_INPUT_FRAME_SIZE) ->
    exists evs,
      trace (snd (exec signal_get_data_callback r st)) = trace st ++ evs /\
      Forall (served_from features) evs.
Proof.
  intros Hf r.
  induction r as [err|offset length out_ptr k IH|k IH|addr b k IH];
    intros st Hctx; cbn [exec].
  - exists []. split; [now rewrite app_nil_r|constructor].
  - unfold bind. rewrite signal_get_data_callback_eq.
    assert (Hd : g_current_signal_data st = features)
      by (unfold context in Hctx; congruence).
    assert (Hs : g_current_signal_size st = EI_CLASSIFIER_DSP_INPUT_FRAME_SIZE)
      by (unfold context in Hctx; congruence).
    rewrite Hd, Hs.
    destruct (features =? nullptr); [apply IH; assumption|].
    destruct (Z.gtb_spec (wrap (offset + length))
                         EI_CLASSIFIER_DSP_INPUT_FRAME_SIZE) as [G|G];
      [apply IH; assumption|].
    set (e := call_memcpy _ _ _). set (st1 := add_event e _).
    destruct (IH 0 st1) as [evs [Htr Hall]];
      [unfold context; cbn; congruence|].
    exists (e :: evs). split.
    + rewrite Htr. unfold st1. cbn [trace add_event set_mem].
      rewrite <- app_assoc. reflexivity.
    + constructor; [|assumption].
      exists offset, length, out_ptr. split; [lia|reflexivity].
  - unfold bind, gets. apply IH. assumption.
  - unfold bind, modify.
    destruct (IH (set_mem (store_byte (mem st) addr b) st)) as [evs [Htr Hall]];
      [exact Hctx|].
    exists evs. split; assumption.
Qed.

Section InvocationAdapterMore.

Variable EI_IMPULSE_OK : Z.
Variable impulse : Z -> Z -> bool -> impulse_run.

Local Abbreviation ffi := (ei_run_classifier_ffi EI_IMPULSE_OK impulse).

(** X5. Once an invocation has returned, the read callback is dead: any
    pull made afterwards returns -1 and touches nothing, so a signal
    handle kept by the runtime cannot be used outside the call. *)
Theorem signal_get_data_callback_after_invocation
        (features result debug offset length out_ptr : Z) (st : state) :
  features <> nullptr -> result <> nullptr ->
  let st' := snd (ffi features result debug st) in
  signal_get_data_callback offset length out_ptr st' = (-1, st').
Proof.
  intros Hf Hr. cbv zeta. rewrite ei_run_classifier_ffi_eq by assumption.
  destruct (run_classifier impulse _ result (negb (debug =? 0)) _)
    as [err st2].
  cbn [snd]. rewrite signal_get_data_callback_eq. reflexivity.
Qed.

(** X6. An invocation does not look at the context it finds: two states
    with the same memory and the same trace give the same status and the
    same final state, whatever buffer or size was bound on entry (a stale
    or outer binding is overwritten, never used or restored). *)
Theorem ei_run_classifier_ffi_ignores_entry_context
        (features result debug : Z) (st1 st2 : state) :
  features <> nullptr -> result <> nullptr ->
  mem st1 = mem st2 -> trace st1 = trace st2 ->
  ffi features result debug st1 = ffi features result debug st2.
Proof.
  intros Hf Hr Hmem Htrace.
  rewrite !ei_run_classifier_ffi_eq by assumption.
  unfold set_signal_size, set_signal_data.
  cbn [g_current_signal_data g_current_signal_size mem trace].
  rewrite Hmem, Htrace. reflexivity.
Qed.

(** X7. With both pointers non-null, the adapter's status is 0 or -1, and
    the first call it adds to the trace is the entry into the runtime, with
    the frame size as declared length, the caller's result pointer and the
    debug flag reduced to a boolean ([debug != 0]).  Every [memcpy] that
    follows during the invocation is one the Signal Adapter issued for a
    request that passed its guard, reading from the caller's buffer at
    [features + offset]. *)
Theorem ei_run_classifier_ffi_trace
        (features result debug : Z) (st : state) :
  features <> nullptr -> result <> nullptr ->
  let run := ffi features result debug st in
  (fst run = 0 \/ fst run = -1) /\
  exists evs,
    trace (snd run) =
      trace st ++
      call_process_impulse EI_CLASSIFIER_DSP_INPUT_FRAME_SIZE result
                           (negb (debug =? 0)) :: evs /\
    forall dst src n,
      In (call_memcpy dst src n) evs ->
      served_from features (call_memcpy dst src n).
Proof.
  intros Hf Hr. cbv zeta. rewrite ei_run_classifier_ffi_eq by assumption.
  unfold run_classifier, process_impulse, bind, modify.
  cbn [total_length get_data].
  set (st0 := add_event _ _).
  destruct (exec_trace features Hf
              (impulse EI_CLASSIFIER_DSP_INPUT_FRAME_SIZE result
                       (negb (debug =? 0))) st0) as [evs [Htr Hall]];
    [reflexivity|].
  destruct (exec signal_get_data_callback _ st0) as [err st2].
  cbn [fst snd] in *. split.
  - destruct (err =? EI_IMPULSE_OK); [left|right]; reflexivity.
  - exists evs. split.
    + cbn [trace set_signal_size set_signal_data]. rewrite Htr.
      unfold st0. cbn [trace add_event set_signal_size set_signal_data].
      rewrite <- app_assoc. reflexivity.
    + intros dst src n Hin. rewrite Forall_forall in Hall.
      apply Hall. exact Hin.
Qed.

End InvocationAdapterMore.

Lemma signal_get_data_callback_after_invocation_witness :
  let st' := snd (ei_run_classifier_ffi 0 sample_impulse sample_features
                                        sample_result 0 idle_state) in
  signal_get_data_callback 0 1 sample_out st' = (-1, st').
Proof.
  apply (signal_get_data_callback_after_invocation 0 sample_impulse
           sample_features sample_result 0 0 1 sample_out idle_state);
    discriminate.
Defined.

Lemma ei_run_classifier_ffi_ignores_entry_context_witness :
  ei_run_classifier_ffi 0 sample_impulse sample_features sample_result 0
                        busy_state =
  ei_run_classifier_ffi 0 sample_impulse sample_features sample_result 0
                        idle_state.
Proof.
  apply (ei_run_classifier_ffi_ignores_entry_context 0 sample_impulse
           sample_features sample_result 0 busy_state idle_state);
    try discriminate; reflexivity.
Defined.

Lemma ei_run_classifier_ffi_trace_witness :
  let run := ei_run_classifier_ffi 0 failing_impulse sample_features
                                   sample_result 7 idle_state in
  fst run = 0 \/ fst run = -1.
Proof.
  apply (ei_run_classifier_ffi_trace 0 failing_impulse sample_features
           sample_result 7 idle_state); discriminate.
Defined.

(** ** Host Primitives Layer *)

(** X8. [ei_printf] adds at most one log call: the state after it is
    either the state before, or that state with one [ESP_LOGI] under the
    tag "EI" whose text is the formatted text up to its first NUL.  An
    empty text is not logged; a text of 1 to 255 characters is, and when
    it contains no NUL the logged text is the complete message. *)
Theorem ei_printf_logs_c_string (expansion : string) (st : state) :
  let st' := snd (ei_printf expansion st) in
  (st' = st \/
   st' = add_event (call_ESP_LOGI "EI" (c_str expansion)) st) /\
  (expansion = EmptyString -> st' = st) /\
  (0 < Z.of_nat (String.length expansion) < 256 ->
   st' = add_event (call_ESP_LOGI "EI" (c_str expansion)) st) /\
  (0 < Z.of_nat (String.length expansion) < 256 ->
   nul_free expansion = true ->
   st' = add_event (call_ESP_LOGI "EI" expansion) st).
Proof.
  cbv zeta.
  assert (Hshort : 0 < Z.of_nat (String.length expansion) < 256 ->
                   snd (ei_printf expansion st) =
                   add_event (call_ESP_LOGI "EI" (c_str expansion)) st)
    by (intros H; now rewrite ei_printf_short).
  split; [|split; [|split]].
  - destruct (Z_lt_le_dec 0 (Z.of_nat (String.length expansion))) as [Hpos|Hz];
      [destruct (Z_lt_le_dec (Z.of_nat (String.length expansion)) 256)
        as [Hlt|Hge]|].
    + right. apply Hshort. lia.
    + left. unfold ei_printf, vsnprintf.
      destruct (Z.of_nat (String.length expansion) <=? INT_MAX);
        [|reflexivity].
      destruct (Z.ltb_spec (Z.of_nat (String.length expansion)) 256); [lia|].
      now rewrite andb_false_r.
    + left. unfold ei_printf, vsnprintf.
      destruct (Z.of_nat (String.length expansion) <=? INT_MAX);
        [|reflexivity].
      destruct (Z.gtb_spec (Z.of_nat (String.length expansion)) 0); [lia|].
      reflexivity.
  - intros ->. reflexivity.
  - exact Hshort.
  - intros Hlen Hfree. rewrite Hshort by exact Hlen.
    now rewrite c_str_nul_free.
Qed.

Lemma ei_printf_logs_c_string_witness :
  snd (ei_printf "ok" idle_state) =
  add_event (call_ESP_LOGI "EI" "ok") idle_state.
Proof.
  apply (ei_printf_logs_c_string "ok" idle_state); [simpl; lia|reflexivity].
Defined.

(** A text with a NUL in it is logged only up to that NUL. *)
Example ei_printf_stops_at_nul :
  snd (ei_printf (String "a" (String zero (String "b" EmptyString)))
                 idle_state) =
  add_event (call_ESP_LOGI "EI" "a") idle_state.
Proof. reflexivity. Qed.

(** X9. [ei_putchar] turns each character other than NUL (which would end
    the text the log call prints) into a log message of its own: one
    [ESP_LOGI] under the tag "EI" whose text is that single character;
    nothing is buffered between calls. *)
Theorem ei_putchar_logs_one_character (c : ascii) (st : state) :
  c <> zero ->
  ei_putchar c st =
  (tt, add_event (call_ESP_LOGI "EI" (String c EmptyString)) st).
Proof.
  intros Hc. unfold ei_putchar.
  rewrite ei_printf_short by (simpl; lia).
  cbn [c_str]. apply Ascii.eqb_neq in Hc. rewrite Hc. reflexivity.
Qed.

Lemma ei_putchar_logs_one_character_witness :
  trace (snd (ei_putchar "x" (snd (ei_putchar "e" idle_state)))) =
  [call_ESP_LOGI "EI" "e"; call_ESP_LOGI "EI" "x"].
Proof.
  rewrite (ei_putchar_logs_one_character "e" idle_state) by discriminate.
  rewrite (ei_putchar_logs_one_character "x") by discriminate.
  reflexivity.
Defined.

Section HostPrimitivesMore.

Variable EI_IMPULSE_OK : Z.
Variable pdMS_TO_TICKS : Z -> Z.
Variable pvPortMalloc : Z -> M Z.

(** X10. [ei_sleep] cannot fail and touches neither memory nor the
    Per-Call Context.  Every non-negative duration, zero included, is
    handed to [vTaskDelay] exactly once, converted by [pdMS_TO_TICKS]. *)
Theorem ei_sleep_always_ok (time_ms : Z) (st : state) :
  let run := ei_sleep EI_IMPULSE_OK pdMS_TO_TICKS time_ms st in
  fst run = EI_IMPULSE_OK /\
  mem (snd run) = mem st /\
  context (snd run) = context st /\
  (0 <= time_ms ->
   trace (snd run) = trace st ++ [call_vTaskDelay (pdMS_TO_TICKS time_ms)]).
Proof.
  cbv zeta. unfold ei_sleep.
  destruct (Z.ltb_spec time_ms 0) as [Hneg|Hpos].
  - repeat split. intros H. lia.
  - repeat split.
Qed.

(** X11. When [nitems * size] fits [size_t], [ei_calloc] returns what the
    allocator returned for exactly that many bytes.  On a null pointer it
    writes nothing; otherwise every byte of the block is zero afterwards
    and no byte outside the block is changed by the zeroing. *)
Theorem ei_calloc_zeroes (nitems size : Z) (st : state) :
  0 <= nitems -> 0 <= size -> nitems * size < size_modulus ->
  let alloc := pvPortMalloc (nitems * size) st in
  let run := ei_calloc pvPortMalloc nitems size st in
  fst run = fst alloc /\
  (fst alloc = nullptr -> snd run = snd alloc) /\
  (fst alloc <> nullptr ->
   (forall k, 0 <= k < nitems * size ->
              mem (snd run) (wrap (fst alloc + k)) = x00) /\
   (forall x, ~ in_range (fst alloc) (nitems * size) x ->
              mem (snd run) x = mem (snd alloc) x) /\
   trace (snd run) = trace (snd alloc) /\
   context (snd run) = context (snd alloc)).
Proof.
  intros Hn Hs Hfit. cbv zeta. unfold ei_calloc, bind, ret.
  rewrite (wrap_small (nitems * size)) by nia.
  destruct (pvPortMalloc (nitems * size) st) as [ptr st1]. cbn [fst snd].
  destruct (Z.eqb_spec ptr nullptr) as [E|NE]; cbn [negb].
  - split; [reflexivity|]. split; [reflexivity|]. contradiction.
  - unfold memset, modify. cbn [fst snd mem set_mem trace context
                                g_current_signal_data g_current_signal_size].
    split; [reflexivity|]. split; [contradiction|]. intros _.
    repeat split.
    + intros k Hk.
      replace (ptr + k) with (ptr + Z.of_nat (Z.to_nat k)) by lia.
      rewrite (store_bytes_get _ _ _ _ x00).
      * apply nth_repeat.
      * rewrite repeat_length. lia.
      * rewrite repeat_length. lia.
    + intros x Hx. apply store_bytes_other. intros k Hk.
      apply (not_in_range _ _ _ Hx). rewrite repeat_length in Hk. lia.
Qed.


End HostPrimitivesMore.

Lemma ei_sleep_always_ok_witness :
  trace (snd (ei_sleep 0 (fun ms => ms / 10) 0 idle_state)) =
  [call_vTaskDelay 0].
Proof.
  apply (ei_sleep_always_ok 0 (fun ms => ms / 10) 0 idle_state). lia.
Defined.

Lemma ei_calloc_zeroes_witness :
  mem (snd (ei_calloc (sample_allocator sample_out) 3 4 idle_state))
      (wrap (sample_out + 5)) = x00.
Proof.
  destruct (ei_calloc_zeroes (sample_allocator sample_out) 3 4 idle_state)
    as [_ [_ H]].
  - lia.
  - lia.
  - unfold size_modulus. lia.
  - destruct H as [Hzero _]; [discriminate|].
    apply (Hzero 5). lia.
Defined.


(** X13. For a clock reading that is not negative, the microsecond timer
    returns the reading itself and the millisecond timer its whole
    milliseconds: [1000 * ms <= us < 1000 * ms + 1000]. *)
Theorem ei_read_timer_ms_us (now : Z) :
  0 <= now <= INT64_MAX ->
  ei_read_timer_us now = now /\
  1000 * ei_read_timer_ms now <= ei_read_timer_us now
    < 1000 * ei_read_timer_ms now + 1000.
Proof.
  intros H. unfold ei_read_timer_us, ei_read_timer_ms, INT64_MAX,
              uint64_modulus in *.
  rewrite Z.quot_div_nonneg by lia.
  pose proof (Z.div_mod now 1000 ltac:(lia)) as Hdm.
  pose proof (Z.mod_pos_bound now 1000 ltac:(lia)) as Hb.
  rewrite !Z.mod_small by lia. lia.
Qed.

Lemma ei_read_timer_ms_us_witness :
  ei_read_timer_us 1234567 = 1234567 /\
  1000 * ei_read_timer_ms 1234567 <= ei_read_timer_us 1234567
    < 1000 * ei_read_timer_ms 1234567 + 1000.
Proof.
  apply (ei_read_timer_ms_us 1234567). unfold INT64_MAX. lia.
Defined.

(** X14. Both timers are monotone: a later, non-negative clock reading
    never gives a smaller millisecond or microsecond value. *)
Theorem ei_read_timer_monotone (earlier later : Z) :
  0 <= earlier <= later -> later <= INT64_MAX ->
  ei_read_timer_ms earlier <= ei_read_timer_ms later /\
  ei_read_timer_us earlier <= ei_read_timer_us later.
Proof.
  intros H Hmax. unfold ei_read_timer_us, ei_read_timer_ms, INT64_MAX,
                   uint64_modulus in *.
  rewrite !Z.quot_div_nonneg by lia.
  pose proof (Z.div_le_mono earlier later 1000 ltac:(lia) ltac:(lia)) as Hmono.
  pose proof (Z.div_pos earlier 1000 ltac:(lia) ltac:(lia)) as Hp.
  pose proof (Z.div_le_upper_bound later 1000 9223372036854775807
                ltac:(lia) ltac:(lia)) as Hu.
  rewrite !Z.mod_small by lia. lia.
Qed.

Lemma ei_read_timer_monotone_witness :
  ei_read_timer_ms 999 <= ei_read_timer_ms 1000 /\
  ei_read_timer_us 999 <= ei_read_timer_us 1000.
Proof.
  apply (ei_read_timer_monotone 999 1000); unfold INT64_MAX; lia.
Defined.
